(** * ManageGroupMembers: assembly of the member list

    A shallow embedding of the list-assembly logic of
    [src/components/right/management/ManageGroupMembers.tsx]: the three
    memoised values [adminIds], [memberIds] and [displayedIds], and
    [getMemberContextAction].  Identifiers are strings, the [byId] records
    are finite maps keyed by identifier, arrays are lists, and an optional
    prop is an [option].

    The component imports its ordering and filtering helpers from other
    modules of the application; they are collected in the interface
    [Imports] below, and every statement about the component holds for any
    implementation of that interface.  The pagination hook is modelled from
    the specification in [Pagination]. *)

From stdpp Require Import base option list gmap strings sorting.

Open Scope string_scope.

(** ** Data *)

Definition id := string.

(** [ApiChatMember]: only [userId] is read by the component. *)
Record ApiChatMember := { userId : id }.

(** The signature of what the component imports from
    [global/helpers]: the user, chat and status records (opaque here apart
    from the one field the component reads, [canBeInvitedToGroup]), the bot
    predicate [isUserBot], the name filter and the two sorts.  Nothing is
    assumed of the name filter.  Of the sorts only what the specification
    (4.2) says of any sort is assumed: the result is a rearrangement of the
    identifiers given. *)
Class Imports := {
  ApiUser : Type;
  ApiChat : Type;
  ApiUserStatus : Type;
  canBeInvitedToGroup : ApiUser → bool;
  isUserBot : ApiUser → bool;
  filterUsersByName : list id → gmap id ApiUser → option string → list id;
  sortUserIds : list id → gmap id ApiUser → gmap id ApiUserStatus → list id;
  sortChatIds : list id → gmap id ApiChat → bool → list id;
  sortUserIds_perm : ∀ ids usersById statusesById,
    sortUserIds ids usersById statusesById ≡ₚ ids;
  sortChatIds_perm : ∀ ids chatsById shouldPrioritizeVerified,
    sortChatIds ids chatsById shouldPrioritizeVerified ≡ₚ ids;
}.

(** Modelled from the spec: [unique] of [util/iteratees] (spec 4.1,
    [deduplicate]): the input with duplicates removed, the first occurrence
    of each identifier kept in place. *)
Fixpoint unique_from (seen : list id) (l : list id) : list id :=
  match l with
  | [] => []
  | x :: l' =>
      if bool_decide (x ∈ seen) then unique_from seen l'
      else x :: unique_from (x :: seen) l'
  end.

Definition unique (l : list id) : list id := unique_from [] l.

(** JavaScript's [Object.keys] on a record.  The component only asks whether
    an identifier is among the keys ([includes]), so their order is left to
    the map. *)
Definition Object_keys {A} (m : gmap id A) : list id := (map_to_list m).*1.

(** [Array.prototype.includes]. *)
Definition includes (l : list id) (x : id) : bool := bool_decide (x ∈ l).

(** [Boolean(searchQuery)]: false for [undefined] and for the empty string. *)
Definition Boolean (s : option string) : bool :=
  match s with
  | Some q => negb (String.eqb q "")
  | None => false
  end.

(** [xs || []] on an optional array. *)
Definition or_empty (xs : option (list id)) : list id := default [] xs.

(** ** The memoised values *)

Section Component.
Context `{Imports}.

(** Lines 88-90. Optional boolean props ([noAdmins], [isChannel],
    [canDeleteMembers]) are only ever tested for truthiness, so they are
    booleans here, [undefined] being [false]. *)
Definition adminIds (noAdmins : bool)
    (adminMembersById : option (gmap id ApiChatMember)) : list id :=
  match noAdmins, adminMembersById with
  | true, Some byId => Object_keys byId
  | _, _ => []
  end.

(** Lines 92-106.  [usersById] is read from the global store; the guard
    [!members || !usersById] is kept, so both are optional here. *)
Definition memberIds
    (members : option (list ApiChatMember))
    (usersById : option (gmap id ApiUser))
    (userStatusesById : gmap id ApiUserStatus)
    (noAdmins : bool) (adminIds : list id) : list id :=
  match members, usersById with
  | Some members, Some usersById =>
      let userIds :=
        sortUserIds (userId <$> members) usersById userStatusesById in
      if noAdmins
      then filter (λ userId, negb (includes adminIds userId)) userIds
      else userIds
  | _, _ => []
  end.

(** Lines 112-115. *)
Definition listedIds (usersById : gmap id ApiUser)
    (memberIds : list id) (localContactIds : option (list id))
    (searchQuery : option string) : list id :=
  let shouldUseSearchResults := Boolean searchQuery in
  if negb shouldUseSearchResults then memberIds
  else match localContactIds with
       | Some ids => filterUsersByName ids usersById searchQuery
       | None => []
       end.

(** Lines 118-122: the argument of [unique] and its result. *)
Definition candidateIds (usersById : gmap id ApiUser)
    (memberIds : list id) (localContactIds : option (list id))
    (searchQuery : option string)
    (localUserIds globalUserIds : option (list id)) : list id :=
  let shouldUseSearchResults := Boolean searchQuery in
  unique
    (listedIds usersById memberIds localContactIds searchQuery
       ++ (if shouldUseSearchResults then or_empty localUserIds else [])
       ++ (if shouldUseSearchResults then or_empty globalUserIds else [])).

(** Lines 122-130: the callback given to [filter]. *)
Definition keepContact (usersById : gmap id ApiUser)
    (isChannel noAdmins : bool) (adminIds : list id)
    (contactId : id) : bool :=
  match usersById !! contactId with
  | None => true
  | Some user =>
      (isChannel || canBeInvitedToGroup user || negb (isUserBot user))
      && (negb noAdmins || negb (includes adminIds contactId))
  end.

(** Lines 108-134. *)
Definition displayedIds
    (usersById : gmap id ApiUser) (chatsById : gmap id ApiChat)
    (memberIds : list id) (localContactIds : option (list id))
    (searchQuery : option string)
    (localUserIds globalUserIds : option (list id))
    (isChannel noAdmins : bool) (adminIds : list id) : list id :=
  sortChatIds
    (filter (λ contactId,
               keepContact usersById isChannel noAdmins adminIds contactId)
       (candidateIds usersById memberIds localContactIds searchQuery
          localUserIds globalUserIds))
    chatsById true.

End Component.

(** ** One render of the component

    Everything the three memoised values read: the props delivered by
    [withGlobal] and the two records read through [getGlobal()], all taken
    at the same moment.  The global store holds [users.byId] as a record and
    [displayedIds] indexes it without a test, so it is present in a snapshot;
    [memberIds] receives it through its guard. *)

Section Snapshot.
Context `{Imports}.

Record Inputs := {
  noAdmins : bool;
  members : option (list ApiChatMember);
  adminMembersById : option (gmap id ApiChatMember);
  userStatusesById : gmap id ApiUserStatus;
  isChannel : bool;
  localContactIds : option (list id);
  searchQuery : option string;
  localUserIds : option (list id);
  globalUserIds : option (list id);
  usersById : gmap id ApiUser;
  chatsById : gmap id ApiChat;
}.

Definition snapshot_adminIds (i : Inputs) : list id :=
  adminIds (noAdmins i) (adminMembersById i).

Definition snapshot_memberIds (i : Inputs) : list id :=
  memberIds (members i) (Some (usersById i)) (userStatusesById i)
    (noAdmins i) (snapshot_adminIds i).

Definition snapshot_candidateIds (i : Inputs) : list id :=
  candidateIds (usersById i) (snapshot_memberIds i) (localContactIds i)
    (searchQuery i) (localUserIds i) (globalUserIds i).

Definition snapshot_displayedIds (i : Inputs) : list id :=
  displayedIds (usersById i) (chatsById i) (snapshot_memberIds i)
    (localContactIds i) (searchQuery i) (localUserIds i) (globalUserIds i)
    (isChannel i) (noAdmins i) (snapshot_adminIds i).

(** The sequence handed to [unique] in search mode: the contacts that
    match the query, then the local and the global search results. *)
Definition searchSources (i : Inputs) : list id :=
  match localContactIds i with
  | Some ids => filterUsersByName ids (usersById i) (searchQuery i)
  | None => []
  end ++ or_empty (localUserIds i) ++ or_empty (globalUserIds i).

(** Deduplication, the eligibility filter and the final sort, applied to a
    source sequence. *)
Definition assemble (i : Inputs) (source : list id) : list id :=
  sortChatIds
    (filter (λ contactId,
               keepContact (usersById i) (isChannel i) (noAdmins i)
                 (snapshot_adminIds i) contactId)
       (unique source))
    (chatsById i) true.

(** Snapshots that differ in chosen props. *)
Definition with_members (ms : option (list ApiChatMember)) (i : Inputs) :=
  {| noAdmins := noAdmins i; members := ms;
     adminMembersById := adminMembersById i;
     userStatusesById := userStatusesById i; isChannel := isChannel i;
     localContactIds := localContactIds i; searchQuery := searchQuery i;
     localUserIds := localUserIds i; globalUserIds := globalUserIds i;
     usersById := usersById i; chatsById := chatsById i |}.

Definition with_search_lists (contacts locals globals : option (list id))
    (i : Inputs) :=
  {| noAdmins := noAdmins i; members := members i;
     adminMembersById := adminMembersById i;
     userStatusesById := userStatusesById i; isChannel := isChannel i;
     localContactIds := contacts; searchQuery := searchQuery i;
     localUserIds := locals; globalUserIds := globals;
     usersById := usersById i; chatsById := chatsById i |}.

Definition with_admins (flag : bool)
    (admins : option (gmap id ApiChatMember)) (i : Inputs) :=
  {| noAdmins := flag; members := members i;
     adminMembersById := admins;
     userStatusesById := userStatusesById i; isChannel := isChannel i;
     localContactIds := localContactIds i; searchQuery := searchQuery i;
     localUserIds := localUserIds i; globalUserIds := globalUserIds i;
     usersById := usersById i; chatsById := chatsById i |}.

End Snapshot.

Arguments Inputs {_}.

(** ** The context action (lines 170-178)

    [handler] is what the action does to the [deletingUserId] state cell. *)
Record MenuItemContextAction := {
  title : string;
  icon : string;
  handler : option id → option id;
}.

Definition getMemberContextAction (lang : string → string)
    (currentUserId : option id) (canDeleteMembers : bool)
    (memberId : id) : option (list MenuItemContextAction) :=
  if bool_decide (Some memberId = currentUserId) || negb canDeleteMembers
  then None
  else Some [ {| title := lang "lng_context_remove_from_group";
                 icon := "stop";
                 handler := λ _, Some memberId |} ].

(** ** A reference implementation of the imports

    The helpers of [global/helpers] as the specification describes them, so
    that the component can be run on concrete snapshots. *)

Module Reference.

(** Modelled from the spec: the user record (spec 6): a display name, the
    [canBeInvitedToGroup] flag and the bot classification. *)
Record User := { displayName : string; invitable : bool; bot : bool }.

Inductive Recency := Recently | LastWeek | LastMonth.

Inductive Status :=
| Online (lastSeen : nat)
| RecentlyOnline (bucket : Recency) (lastSeen : nat)
| Offline (lastSeen : nat).

Record Chat := { lastActive : nat }.

(** Keys are compared lexicographically; a larger key sorts first. *)
Definition key := (nat * nat * nat)%type.

Definition key_gtb (a b : key) : bool :=
  let '(a1, a2, a3) := a in
  let '(b1, b2, b3) := b in
  (b1 <? a1)%nat
  || ((a1 =? b1)%nat && ((b2 <? a2)%nat || ((a2 =? b2)%nat && (b3 <? a3)%nat))).

(** Insertion of [x], which stood before every element of the sorted [l]:
    only elements with a strictly larger key stay ahead of it, so equal keys
    keep their order. *)
Fixpoint insert_by (k : id → key) (x : id) (l : list id) : list id :=
  match l with
  | [] => [x]
  | y :: l' => if key_gtb (k y) (k x) then y :: insert_by k x l' else x :: l
  end.

Definition stable_sort (k : id → key) (l : list id) : list id :=
  foldr (insert_by k) [] l.

(** Modelled from the spec: the sort key of [sortUserIds] (spec 4.2,
    [orderUsersByPresence]): online before recently online (by bucket)
    before offline, the later last-seen first within a bucket, unknown
    status last. *)
Definition presence (usersById : gmap id User)
    (statusesById : gmap id Status) (x : id) : key :=
  match usersById !! x, statusesById !! x with
  | Some _, Some (Online t) => (3, 0, t)
  | Some _, Some (RecentlyOnline Recently t) => (2, 3, t)
  | Some _, Some (RecentlyOnline LastWeek t) => (2, 2, t)
  | Some _, Some (RecentlyOnline LastMonth t) => (2, 1, t)
  | Some _, Some (Offline t) => (1, 0, t)
  | _, _ => (0, 0, 0)
  end%nat.

(** Modelled from the spec: [sortUserIds] of [global/helpers] (spec 4.2,
    [orderUsersByPresence]), a stable sort by presence. *)
Definition sortUserIds (ids : list id) (usersById : gmap id User)
    (statusesById : gmap id Status) : list id :=
  stable_sort (presence usersById statusesById) ids.

(** Modelled from the spec: the sort key of [sortChatIds] (spec 4.2,
    [orderChatIdentifiers]): with the flag set, identifiers that resolve in
    the chat index sort before those that do not, the more recently active
    first within each group. *)
Definition chatRank (chatsById : gmap id Chat) (preferExisting : bool)
    (x : id) : key :=
  match chatsById !! x with
  | Some c => ((if preferExisting then 1 else 0), 0, lastActive c)
  | None => (0, 0, 0)
  end%nat.

(** Modelled from the spec: [sortChatIds] of [global/helpers] (spec 4.2,
    [orderChatIdentifiers]), a stable sort by that key. *)
Definition sortChatIds (ids : list id) (chatsById : gmap id Chat)
    (preferExisting : bool) : list id :=
  stable_sort (chatRank chatsById preferExisting) ids.

Definition lower_ascii (c : Ascii.ascii) : Ascii.ascii :=
  let n := Ascii.nat_of_ascii c in
  if ((65 <=? n) && (n <=? 90))%nat then Ascii.ascii_of_nat (n + 32) else c.

Fixpoint lower (s : string) : string :=
  match s with
  | EmptyString => EmptyString
  | String c s' => String (lower_ascii c) (lower s')
  end.

Fixpoint contains (needle hay : string) : bool :=
  String.prefix needle hay
  || match hay with
     | EmptyString => false
     | String _ hay' => contains needle hay'
     end.

(** Modelled from the spec: the test of [filterUsersByName] (spec 4.1,
    [filterByNamePrefix]): the user's name contains the query, case ignored;
    an identifier with no user record fails it. *)
Definition nameMatches (usersById : gmap id User) (query : option string)
    (x : id) : bool :=
  match usersById !! x with
  | Some u => contains (lower (default "" query)) (lower (displayName u))
  | None => false
  end.

(** Modelled from the spec: [filterUsersByName] of [global/helpers]
    (spec 4.1, [filterByNamePrefix]): the subsequence of the identifiers
    whose user's name matches the query. *)
Definition filterUsersByName (ids : list id) (usersById : gmap id User)
    (query : option string) : list id :=
  filter (λ x, Is_true (nameMatches usersById query x)) ids.

Lemma insert_by_perm k x l : insert_by k x l ≡ₚ x :: l.
Proof.
  induction l as [|y l IH]; simpl; [done|].
  destruct (key_gtb (k y) (k x)); [|done].
  rewrite IH. apply Permutation_swap.
Qed.

Lemma stable_sort_perm k l : stable_sort k l ≡ₚ l.
Proof.
  induction l as [|x l IH]; simpl; [done|].
  rewrite insert_by_perm. by rewrite IH.
Qed.

End Reference.

Definition reference : Imports := {|
  ApiUser := Reference.User;
  ApiChat := Reference.Chat;
  ApiUserStatus := Reference.Status;
  canBeInvitedToGroup := Reference.invitable;
  isUserBot := Reference.bot;
  filterUsersByName := Reference.filterUsersByName;
  sortUserIds := Reference.sortUserIds;
  sortChatIds := Reference.sortChatIds;
  sortUserIds_perm ids us ss :=
    Reference.stable_sort_perm (Reference.presence us ss) ids;
  sortChatIds_perm ids cs b :=
    Reference.stable_sort_perm (Reference.chatRank cs b) ids;
|}.

(** ** The specification's reading of [memberIds]

    Follows the words of the specification (section 4.3), for comparison with
    [memberIds] above: the members' identifiers are deduplicated before they
    are ordered by presence, then filtered of [adminIds] in admins-only
    mode. *)
Definition memberIds_dedup `{Imports}
    (members : list ApiChatMember) (usersById : gmap id ApiUser)
    (userStatusesById : gmap id ApiUserStatus)
    (adminsOnly : bool) (adminIds : list id) : list id :=
  let ordered :=
    sortUserIds (unique (userId <$> members)) usersById userStatusesById in
  if adminsOnly
  then filter (λ userId, negb (includes adminIds userId)) ordered
  else ordered.

(** ** Sample snapshots, over the reference helpers *)

Module Samples.
Import Reference.
#[local] Existing Instance reference.

Definition member (x : id) : ApiChatMember := {| userId := x |}.

Definition users : gmap id ApiUser :=
  list_to_map
    [ ("u1", {| displayName := "Una"; invitable := true; bot := false |});
      ("u2", {| displayName := "Uma"; invitable := true; bot := false |});
      ("u3", {| displayName := "Ann"; invitable := true; bot := false |});
      ("u4", {| displayName := "Bob"; invitable := true; bot := false |});
      ("u7", {| displayName := "Annbot"; invitable := false; bot := true |}) ].

Definition statuses : gmap id ApiUserStatus :=
  list_to_map [ ("u2", Online 9); ("u1", Offline 4) ].

(** Two members, [u1] an administrator; no query. *)
Definition group (adminsOnly : bool) : Inputs := {|
  noAdmins := adminsOnly;
  members := Some [member "u1"; member "u2"];
  adminMembersById := Some {[ "u1" := member "u1" ]};
  userStatusesById := statuses;
  isChannel := false;
  localContactIds := Some ["u3"; "u4"];
  searchQuery := None;
  localUserIds := Some ["u5"];
  globalUserIds := Some ["u6"];
  usersById := users;
  chatsById := ∅;
|}.

(** A search for "ann": two contacts, one local hit and two global hits, of
    which [u5] and [u6] have no user record and [u7] is a bot that cannot be
    invited. *)
Definition search : Inputs := {|
  noAdmins := false;
  members := Some [member "u1"; member "u2"];
  adminMembersById := None;
  userStatusesById := statuses;
  isChannel := false;
  localContactIds := Some ["u3"; "u4"];
  searchQuery := Some "ann";
  localUserIds := Some ["u5"];
  globalUserIds := Some ["u6"; "u7"];
  usersById := users;
  chatsById := ∅;
|}.

(** Admins-only mode, a search whose global hit [u9] is an administrator
    with no record in the user index. *)
Definition admin_hit : Inputs := {|
  noAdmins := true;
  members := Some [member "u1"; member "u9"];
  adminMembersById := Some {[ "u9" := member "u9" ]};
  userStatusesById := statuses;
  isChannel := false;
  localContactIds := None;
  searchQuery := Some "a";
  localUserIds := None;
  globalUserIds := Some ["u9"];
  usersById := users;
  chatsById := ∅;
|}.

(** Admins-only mode with no admin index. *)
Definition no_admin_index : Inputs := {|
  noAdmins := true;
  members := Some [member "u1"; member "u2"];
  adminMembersById := None;
  userStatusesById := statuses;
  isChannel := false;
  localContactIds := None;
  searchQuery := None;
  localUserIds := None;
  globalUserIds := None;
  usersById := users;
  chatsById := ∅;
|}.

End Samples.

(** ** The pagination window

    [useInfiniteScroll] lives in [hooks/useInfiniteScroll]; the component
    hands it [displayedIds] and receives [viewportIds] and [getMore]. *)

Module Pagination.

(** Modelled from the spec: the state of the hook [useInfiniteScroll]
    (spec 4.5), a pair of the displayed list and the viewport size. *)
Record Window := { displayedIds : list id; viewportSize : nat }.

Section Machine.
Variables initialPageSize pageIncrement : nat.

(** Modelled from the spec: [viewportIds] of [useInfiniteScroll]
    (spec 4.5), [displayedIds[0:viewportSize]]. *)
Definition viewportIds (w : Window) : list id :=
  take (viewportSize w) (displayedIds w).

(** Modelled from the spec: the initial state of [useInfiniteScroll]
    (spec 4.5): the viewport opens at the initial page size (which may be
    0), or at the whole list when that is shorter, the viewport being a
    slice of the list whose size never exceeds its length (spec 3, 4.5). *)
Definition initial (ids : list id) : Window :=
  {| displayedIds := ids; viewportSize := initialPageSize `min` length ids |}.

(** Modelled from the spec: [getMore] of [useInfiniteScroll] (spec 4.5,
    LoadMore): the viewport size grows by the page increment, capped at
    the length of the list. *)
Definition loadMore (w : Window) : Window :=
  {| displayedIds := displayedIds w;
     viewportSize :=
       (viewportSize w + pageIncrement) `min` length (displayedIds w) |}.


(** Modelled from the spec: the call of line 136,
    [useInfiniteScroll(undefined, displayedIds, Boolean(searchQuery))], on
    the first render: the window opens over the list it is handed.  The
    first argument, the backwards loader, is [undefined]; the third says
    whether a query is active, for which the specification (4.5) describes
    the same window, without scroll restoration. *)
Definition useInfiniteScroll (listIds : list id) (queryActive : bool)
    : Window := initial listIds.


End Machine.

End Pagination.

(** ** Event handlers

    A handler is run for the calls it makes on the actions and callbacks it
    is given, in order, and for whether it returns: calling an optional
    callback that was not supplied ([onChatMemberSelect!], [onScreenSelect!])
    throws. *)

(** The one member of [ManagementScreens] the component names. *)
Variant ManagementScreens := ChatNewAdminRights.

Inductive Call :=
| onChatMemberSelect (memberId : option id) (isPromotedByCurrentUser : bool)
| onScreenSelect (screen : ManagementScreens)
| closeManagement
| openChat (chatId : option id)
| setUserSearchQuery (query : string)
| toggleParticipantsHidden (chatId : id) (isEnabled : bool).

Record Run := { calls : list Call; returned : bool }.

Definition skip : Run := {| calls := []; returned := true |}.

Definition call (c : Call) : Run := {| calls := [c]; returned := true |}.

(** A call through an optional prop: a [TypeError] when it is [undefined]. *)
Definition call_prop (supplied : bool) (c : Call) : Run :=
  if supplied then call c else {| calls := []; returned := false |}.

Definition then_run (a b : Run) : Run :=
  if returned a
  then {| calls := calls a ++ calls b; returned := returned b |}
  else a.

(** Lines 138-146.  The argument is what the caller passes: an identifier,
    or [undefined] when the keyboard handler indexes past the viewport. *)
Definition handleMemberClick (noAdmins : bool)
    (hasOnChatMemberSelect hasOnScreenSelect : bool)
    (memberId : option id) : Run :=
  if noAdmins
  then then_run
         (call_prop hasOnChatMemberSelect (onChatMemberSelect memberId true))
         (call_prop hasOnScreenSelect (onScreenSelect ChatNewAdminRights))
  else then_run (call closeManagement) (call (openChat memberId)).

(** Line 149. *)
Definition handleFilterChange (value : string) : Run :=
  call (setUserSearchQuery value).

(** [array[k]] for a number [k]: [undefined] outside the array. *)
Definition array_at (l : list id) (k : Z) : option id :=
  if (k <? 0)%Z then None else l !! Z.to_nat k.

(** Lines 151-155: the callback handed to [useKeyboardListNavigation]. *)
Definition handleKeyDown_select (noAdmins : bool)
    (hasOnChatMemberSelect hasOnScreenSelect : bool)
    (viewportIds : option (list id)) (index : Z) : Run :=
  match viewportIds with
  | Some (first :: rest) =>
      handleMemberClick noAdmins hasOnChatMemberSelect hasOnScreenSelect
        (array_at (first :: rest) (if (index =? -1)%Z then 0%Z else index))
  | _ => skip
  end.

(** Lines 157-159, on the [deletingUserId] state cell. *)
Definition handleDeleteMembersModalClose (deletingUserId : option id)
    : option id := None.

(** Lines 161-163. *)
Definition handleToggleParticipantsHidden (chatId : id)
    (areParticipantsHidden : bool) : Run :=
  call (toggleParticipantsHidden chatId (negb areParticipantsHidden)).

(** ** What is rendered (lines 193-249) *)

(** The member section (lines 208-239): the list with one row per viewport
    identifier and its context actions, the nothing-found notice, or the
    loading placeholder. *)
Inductive Section_ :=
| MemberList (items : list id)
    (rows : list (id * option (list MenuItemContextAction)))
| NothingFound (text : string)
| Loading.

Definition renderMembers (lang : string → string)
    (currentUserId : option id) (canDeleteMembers : bool)
    (displayedIds : list id) (viewportIds : option (list id))
    (isSearching isChannel : bool) : Section_ :=
  match viewportIds with
  | Some (first :: rest) =>
      MemberList displayedIds
        ((λ x, (x, getMemberContextAction lang currentUserId
                     canDeleteMembers x)) <$> (first :: rest))
  | _ =>
      if negb isSearching
         && match viewportIds with Some [] => true | _ => false end
      then NothingFound
             (if isChannel then "No subscribers found"
              else "No members found")
      else Loading
  end.

(** [DeleteMemberModal] (lines 241-247): mounted when [canDeleteMembers],
    with [isOpen] and [userId] read from [deletingUserId]. *)
Record DeleteMemberModal := { isOpen : bool; modal_userId : option id }.

Definition renderDeleteMemberModal (canDeleteMembers : bool)
    (deletingUserId : option id) : option DeleteMemberModal :=
  if canDeleteMembers
  then Some {| isOpen := Boolean deletingUserId;
               modal_userId := deletingUserId |}
  else None.

(** ** The connection to the global store (lines 252-288) *)

Module Connect.

Section MapState.
Context `{Imports}.

(** What the component reads of a chat, and the chat helpers of
    [global/helpers]. *)
Variables (isCreator : ApiChat → bool) (membersCount : ApiChat → option Z).
Variables (isChatChannel isChatBasicGroup : ApiChat → bool).
Variable getHasAdminRight : ApiChat → string → bool.

(** The result of [selectChatFullInfo]. *)
Record ChatFullInfo := {
  full_members : option (list ApiChatMember);
  full_adminMembersById : option (gmap id ApiChatMember);
  full_areParticipantsHidden : bool;
}.

(** [selectTabState(global).userSearch]. *)
Record UserSearch := {
  query : option string;
  fetchingStatus : bool;
  search_globalUserIds : option (list id);
  search_localUserIds : option (list id);
}.

(** The parts of the global state the component reads, the selectors
    [selectChat] and [selectChatFullInfo] being given by their results. *)
Record GlobalState := {
  selectChat : id → option ApiChat;
  selectChatFullInfo : id → option ChatFullInfo;
  users_byId : gmap id ApiUser;
  users_statusesById : gmap id ApiUserStatus;
  chats_byId : gmap id ApiChat;
  contactList_userIds : option (list id);
  appConfig_hiddenMembersMinCount : option Z;
  userSearch : UserSearch;
  global_currentUserId : option id;
}.

Record StateProps := {
  userStatusesById : gmap id ApiUserStatus;
  members : option (list ApiChatMember);
  adminMembersById : option (gmap id ApiChatMember);
  isChannel : bool;
  localContactIds : option (list id);
  searchQuery : option string;
  isSearching : bool;
  localUserIds : option (list id);
  globalUserIds : option (list id);
  currentUserId : option id;
  canDeleteMembers : bool;
  areParticipantsHidden : bool;
  canHideParticipants : bool;
}.

Definition mapStateToProps (global : GlobalState) (chatId : id)
    : StateProps :=
  let chat := selectChat global chatId in
  let fullInfo := selectChatFullInfo global chatId in
  let canDeleteMembers :=
    match chat with
    | Some c => isCreator c || getHasAdminRight c "banUsers"
    | None => false
    end in
  let canHideParticipants :=
    canDeleteMembers
    && match chat with
       | Some c =>
           negb (isChatBasicGroup c)
           && match membersCount c,
                    appConfig_hiddenMembersMinCount global with
              | Some count, Some minCount => (minCount <=? count)%Z
              | _, _ => false
              end
       | None => false
       end in
  {| areParticipantsHidden :=
       match chat with
       | Some _ => from_option full_areParticipantsHidden false fullInfo
       | None => false
       end;
     members := fullInfo ≫= full_members;
     adminMembersById := fullInfo ≫= full_adminMembersById;
     userStatusesById := users_statusesById global;
     isChannel :=
       match chat with Some c => isChatChannel c | None => false end;
     localContactIds := contactList_userIds global;
     searchQuery := query (userSearch global);
     isSearching := fetchingStatus (userSearch global);
     globalUserIds := search_globalUserIds (userSearch global);
     localUserIds := search_localUserIds (userSearch global);
     canDeleteMembers := canDeleteMembers;
     currentUserId := global_currentUserId global;
     canHideParticipants := canHideParticipants |}.

(** The snapshot the memoised values are computed on, for the own prop
    [noAdmins]. *)
Definition inputs (noAdmins : bool) (global : GlobalState)
    (props : StateProps) : Inputs :=
  Build_Inputs noAdmins (members props) (adminMembersById props)
    (userStatusesById props) (isChannel props) (localContactIds props)
    (searchQuery props) (localUserIds props) (globalUserIds props)
    (users_byId global) (chats_byId global).

End MapState.

End Connect.

(** ** Further sample snapshots and a sample store *)

Module MoreSamples.
Import Reference.
#[local] Existing Instance reference.

(** The sample search, in a channel. *)
Definition channel_search : Inputs := {|
  noAdmins := false;
  members := Some [Samples.member "u1"; Samples.member "u2"];
  adminMembersById := None;
  userStatusesById := Samples.statuses;
  isChannel := true;
  localContactIds := Some ["u3"; "u4"];
  searchQuery := Some "ann";
  localUserIds := Some ["u5"];
  globalUserIds := Some ["u6"; "u7"];
  usersById := Samples.users;
  chatsById := ∅;
|}.

(** A chat whose member list is not loaded, with an empty query. *)
Definition unloaded : Inputs := {|
  noAdmins := false;
  members := None;
  adminMembersById := None;
  userStatusesById := Samples.statuses;
  isChannel := false;
  localContactIds := Some ["u3"; "u4"];
  searchQuery := Some "";
  localUserIds := Some ["u5"];
  globalUserIds := None;
  usersById := Samples.users;
  chatsById := ∅;
|}.

(** A store that knows the chat [c1], of which the viewer [u1] is the
    creator, but has no full info for it. *)
Definition creator (c : ApiChat) : bool := (lastActive c =? 1)%nat.

Definition count (c : ApiChat) : option Z := Some 200%Z.

Definition never (c : ApiChat) : bool := false.

Definition no_right (c : ApiChat) (right : string) : bool := false.

Definition store : Connect.GlobalState := {|
  Connect.selectChat chatId :=
    if String.eqb chatId "c1" then Some {| lastActive := 1 |} else None;
  Connect.selectChatFullInfo chatId := None;
  Connect.users_byId := Samples.users;
  Connect.users_statusesById := Samples.statuses;
  Connect.chats_byId := ∅;
  Connect.contactList_userIds := Some ["u3"; "u4"];
  Connect.appConfig_hiddenMembersMinCount := Some 100%Z;
  Connect.userSearch :=
    {| Connect.query := None; Connect.fetchingStatus := false;
       Connect.search_globalUserIds := None;
       Connect.search_localUserIds := None |};
  Connect.global_currentUserId := Some "u1";
|}.

End MoreSamples.

(** * Properties *)

(** Decidable facts about concrete snapshots are settled by evaluation. *)
Ltac by_evaluation := apply (bool_decide_unpack _); vm_compute; exact I.

(** ** Helpers on lists and keys *)

Lemma includes_true l x : includes l x = true ↔ x ∈ l.
Proof. unfold includes. apply bool_decide_eq_true. Qed.

Lemma includes_false l x : includes l x = false ↔ x ∉ l.
Proof. unfold includes. apply bool_decide_eq_false. Qed.

Lemma elem_of_Object_keys {A} (m : gmap id A) k :
  k ∈ Object_keys m ↔ is_Some (m !! k).
Proof.
  unfold Object_keys. rewrite list_elem_of_fmap. split.
  - intros [[k' v] [-> Hin]]. apply elem_of_map_to_list in Hin. by exists v.
  - intros [v Hv]. exists (k, v). split; [done|]. by apply elem_of_map_to_list.
Qed.

Lemma Boolean_true q : Boolean q = true ↔ ∃ s, q = Some s ∧ s ≠ "".
Proof.
  destruct q as [s|]; simpl.
  - rewrite negb_true_iff. split.
    + intros Hs. exists s. split; [done|]. intros ->. discriminate.
    + intros (s' & [= <-] & Hne). by apply String.eqb_neq.
  - split; [done|]. by intros (? & ? & ?).
Qed.

Lemma unique_from_elem seen l x :
  x ∈ unique_from seen l ↔ x ∈ l ∧ x ∉ seen.
Proof.
  revert seen. induction l as [|y l IH]; intros seen; simpl.
  - split; [inversion 1|]. intros [Hx _]. inversion Hx.
  - case_bool_decide as Hy.
    + rewrite IH, elem_of_cons. split; [tauto|].
      intros [[->|Hx] Hs]; [done|]. done.
    + rewrite !elem_of_cons, IH, elem_of_cons.
      destruct (decide (x = y)) as [->|Hne]; [|tauto].
      split; [|tauto]. intros _. split; [by left|done].
Qed.

Lemma unique_from_NoDup seen l : NoDup (unique_from seen l).
Proof.
  revert seen. induction l as [|y l IH]; intros seen; simpl.
  - constructor.
  - case_bool_decide; [apply IH|]. constructor; [|apply IH].
    rewrite unique_from_elem, elem_of_cons. tauto.
Qed.

Lemma unique_elem l x : x ∈ unique l ↔ x ∈ l.
Proof.
  unfold unique. rewrite unique_from_elem. split; [tauto|].
  intros Hx. split; [done|]. inversion 1.
Qed.

Lemma unique_NoDup l : NoDup (unique l).
Proof. apply unique_from_NoDup. Qed.

Lemma unique_from_fixed seen l :
  NoDup l → (∀ x, x ∈ l → x ∉ seen) → unique_from seen l = l.
Proof.
  revert seen. induction l as [|y l IH]; intros seen Hnd Hdisj; simpl.
  - done.
  - apply NoDup_cons in Hnd as [Hy Hnd].
    rewrite bool_decide_eq_false_2 by (apply Hdisj; left).
    f_equal. apply IH; [done|]. intros x Hx.
    rewrite elem_of_cons. intros [->|Hs]; [done|].
    by apply (Hdisj x); [right|].
Qed.

Lemma unique_fixed l : NoDup l → unique l = l.
Proof. intros Hnd. apply unique_from_fixed; [done|]. intros ? _. inversion 1. Qed.

Lemma unique_shrinks_dup x l :
  (length (unique (x :: x :: l)) < length (x :: x :: l))%nat.
Proof.
  assert (Hlen : ∀ seen k, (length (unique_from seen k) ≤ length k)%nat).
  { intros seen k. revert seen. induction k as [|y k IH]; intros seen; simpl.
    - lia.
    - case_bool_decide; simpl; [specialize (IH seen)|specialize (IH (y :: seen))]; lia. }
  unfold unique. cbn [unique_from].
  rewrite (bool_decide_eq_false_2 (x ∈ [])) by inversion 1.
  rewrite (bool_decide_eq_true_2 (x ∈ [x])) by (rewrite elem_of_cons; by left).
  simpl. specialize (Hlen [x] l). lia.
Qed.

(** ** The eligibility filter and the assembled list *)

Section Assembly.
Context `{Imports}.

Lemma keepContact_unresolved us ch na ads x :
  us !! x = None → keepContact us ch na ads x = true.
Proof. unfold keepContact. by intros ->. Qed.

Lemma keepContact_resolved us ch na ads x u :
  us !! x = Some u →
  keepContact us ch na ads x =
    (ch || canBeInvitedToGroup u || negb (isUserBot u))
    && (negb na || negb (includes ads x)).
Proof. unfold keepContact. by intros ->. Qed.

Lemma elem_of_displayedIds us cs ms lc q lu gu ch na ads x :
  x ∈ displayedIds us cs ms lc q lu gu ch na ads ↔
  x ∈ candidateIds us ms lc q lu gu ∧ keepContact us ch na ads x = true.
Proof.
  unfold displayedIds.
  rewrite sortChatIds_perm, list_elem_of_filter, Is_true_true. tauto.
Qed.

Lemma NoDup_displayedIds us cs ms lc q lu gu ch na ads :
  NoDup (displayedIds us cs ms lc q lu gu ch na ads).
Proof.
  unfold displayedIds. rewrite sortChatIds_perm.
  apply NoDup_filter, unique_NoDup.
Qed.

Lemma elem_of_memberIds ms us ss na ads x :
  x ∈ memberIds (Some ms) (Some us) ss na ads ↔
  x ∈ userId <$> ms ∧ (na = true → x ∉ ads).
Proof.
  unfold memberIds. destruct na.
  - rewrite list_elem_of_filter, sortUserIds_perm, negb_True, Is_true_true,
      includes_true. tauto.
  - rewrite sortUserIds_perm. split; [|tauto]. intros Hx. split; [done|].
    discriminate.
Qed.

Lemma memberIds_no_admin ms us ss ads x :
  x ∈ ads → x ∉ memberIds ms us ss true ads.
Proof.
  intros Hadm. destruct ms as [ms|], us as [us|];
    [|unfold memberIds; inversion 1..].
  rewrite elem_of_memberIds. intros [_ Hx]. by apply Hx.
Qed.

(** An identifier without a user record passes the filter whatever the
    mode. *)
Lemma unresolved_candidate_kept us cs ms lc q lu gu ch na ads x :
  x ∈ candidateIds us ms lc q lu gu → us !! x = None →
  x ∈ displayedIds us cs ms lc q lu gu ch na ads.
Proof.
  intros Hcand Hnone. apply elem_of_displayedIds. split; [exact Hcand|].
  by apply keepContact_unresolved.
Qed.

(** An uninvitable bot with a user record never passes the filter outside a
    channel, member of the chat or not. *)
Lemma uninvitable_bot_dropped us cs ms lc q lu gu na ads x u :
  us !! x = Some u → isUserBot u = true → canBeInvitedToGroup u = false →
  x ∉ displayedIds us cs ms lc q lu gu false na ads.
Proof.
  intros Hu Hbot Hinv. rewrite elem_of_displayedIds.
  rewrite (keepContact_resolved _ _ _ _ _ _ Hu), Hbot, Hinv. simpl.
  intros [_ ?]. discriminate.
Qed.

(** An administrator with a user record never passes the filter in
    admins-only mode. *)
Lemma resolved_admin_dropped us cs ms lc q lu gu ch ads x :
  is_Some (us !! x) → x ∈ ads →
  x ∉ displayedIds us cs ms lc q lu gu ch true ads.
Proof.
  intros [u Hu] Hadm. rewrite elem_of_displayedIds.
  rewrite (keepContact_resolved _ _ _ _ _ _ Hu).
  apply includes_true in Hadm. rewrite Hadm, andb_false_r.
  intros [_ ?]. discriminate.
Qed.

End Assembly.

(** ** The displayed list of a snapshot *)

Section Displayed.
Context `{Imports}.

Lemma snapshot_displayedIds_search (i : Inputs) :
  Boolean (searchQuery i) = true →
  snapshot_displayedIds i = assemble i (searchSources i).
Proof.
  intros Hq. unfold snapshot_displayedIds, displayedIds, candidateIds,
    listedIds, assemble, searchSources.
  by rewrite Hq.
Qed.

Lemma snapshot_displayedIds_members (i : Inputs) :
  Boolean (searchQuery i) = false →
  snapshot_displayedIds i = assemble i (snapshot_memberIds i).
Proof.
  intros Hq. unfold snapshot_displayedIds, displayedIds, candidateIds,
    listedIds, assemble.
  rewrite Hq. simpl. by rewrite app_nil_r.
Qed.

Lemma Boolean_false q : Boolean q = false ↔ q = None ∨ q = Some "".
Proof.
  destruct q as [s|]; simpl.
  - rewrite negb_false_iff, String.eqb_eq. split.
    + intros ->. by right.
    + by intros [|[= ->]].
  - split; [by left|done].
Qed.

(** C1, as amended.  An identifier of the merged candidate list that has no
    record in the user index is kept by the eligibility filter, not dropped:
    whenever admin exclusion does not concern it (the mode is off, or it is
    no administrator), it is present in [displayedIds]. *)
Theorem unresolved_candidate_displayed (i : Inputs) (x : id) :
  x ∈ snapshot_candidateIds i →
  usersById i !! x = None →
  noAdmins i = false ∨ x ∉ snapshot_adminIds i →
  x ∈ snapshot_displayedIds i.
Proof.
  intros Hcand Hnone _. by apply unresolved_candidate_kept.
Qed.

(** C3.  [displayedIds] holds no identifier twice, whatever the
    snapshot. *)
Theorem displayedIds_NoDup (i : Inputs) : NoDup (snapshot_displayedIds i).
Proof. apply NoDup_displayedIds. Qed.

(** C4.  Outside a channel, an identifier whose user record is a bot that
    cannot be invited to a group, and that is not among the chat's resolved
    members, is absent from [displayedIds].  (The filter does not look at
    membership: see [uninvitable_bot_dropped].) *)
Theorem uninvitable_bot_excluded (i : Inputs) (x : id) (u : ApiUser) :
  isChannel i = false →
  usersById i !! x = Some u →
  isUserBot u = true →
  canBeInvitedToGroup u = false →
  x ∉ snapshot_memberIds i →
  x ∉ snapshot_displayedIds i.
Proof.
  intros Hch Hu Hbot Hinv _. unfold snapshot_displayedIds. rewrite Hch.
  by eapply uninvitable_bot_dropped.
Qed.

(** C6.  With a non-empty query [displayedIds] is assembled from the
    name-filtered contacts followed by the local and global search results,
    and the membership list plays no part; with an empty or undefined
    query it is assembled from [memberIds] alone. *)
Theorem displayedIds_sources (i : Inputs) :
  (∀ q, searchQuery i = Some q → q ≠ "" →
     snapshot_displayedIds i = assemble i (searchSources i)
     ∧ ∀ ms, snapshot_displayedIds (with_members ms i)
             = snapshot_displayedIds i)
  ∧ (searchQuery i = None ∨ searchQuery i = Some "" →
     snapshot_displayedIds i = assemble i (snapshot_memberIds i)).
Proof.
  split.
  - intros q Hq Hne.
    assert (Hb : Boolean (searchQuery i) = true).
    { apply Boolean_true. by exists q. }
    split; [by apply snapshot_displayedIds_search|].
    intros ms. rewrite !snapshot_displayedIds_search by done. done.
  - intros Hq. apply snapshot_displayedIds_members. by apply Boolean_false.
Qed.

(** C9.  With an empty or undefined query, two runs that differ only in
    [localContactIds], [localUserIds] and [globalUserIds] display the same
    list. *)
Theorem displayedIds_ignores_search_lists (i : Inputs)
    (contacts1 locals1 globals1 contacts2 locals2 globals2
       : option (list id)) :
  searchQuery i = None ∨ searchQuery i = Some "" →
  snapshot_displayedIds (with_search_lists contacts1 locals1 globals1 i)
  = snapshot_displayedIds (with_search_lists contacts2 locals2 globals2 i).
Proof.
  intros Hq. apply Boolean_false in Hq.
  rewrite !snapshot_displayedIds_members by done. done.
Qed.

End Displayed.

(** ** Members and administrators *)

Section Members.
Context `{Imports}.

Lemma filter_includes_nil (l : list id) :
  filter (λ x, negb (includes [] x)) l = l.
Proof.
  induction l as [|y l IH]; [done|].
  rewrite filter_cons_True; [by rewrite IH|].
  apply negb_True. intros Hy%Is_true_true%includes_true. inversion Hy.
Qed.

Lemma keepContact_no_admins us ch na x :
  keepContact us ch na [] x = keepContact us ch false [] x.
Proof.
  unfold keepContact. destruct (us !! x); [|done].
  by destruct na.
Qed.

(** Whatever the helpers, a member listed twice tells [memberIds] from the
    presence-ordered deduplication: the former keeps both entries. *)
Lemma memberIds_dedup_differs (m : ApiChatMember) (ms : list ApiChatMember)
    (us : gmap id ApiUser) (ss : gmap id ApiUserStatus) (ads : list id) :
  memberIds (Some (m :: m :: ms)) (Some us) ss false ads
  ≠ memberIds_dedup (m :: m :: ms) us ss false ads.
Proof.
  unfold memberIds, memberIds_dedup. intros Heq.
  apply (f_equal length) in Heq. rewrite !sortUserIds_perm in Heq.
  pose proof (unique_shrinks_dup (userId m) (userId <$> ms)) as Hlt.
  rewrite !fmap_cons in Heq. lia.
Qed.

(** C5, as amended.  With members and the user index present, [memberIds]
    equals the presence-ordered sequence of the members' identifiers, no
    deduplication applied, filtered of [adminIds] in admins-only mode; every
    occurrence in the raw list is kept, so it is a rearrangement of the
    non-excluded entries of that list, duplicates included.  It equals the
    presence-ordered deduplication when the members' identifiers are
    pairwise distinct. *)
Theorem memberIds_keeps_occurrences
    (ms : list ApiChatMember) (us : gmap id ApiUser)
    (ss : gmap id ApiUserStatus) (adminsOnly : bool) (ads : list id) :
  memberIds (Some ms) (Some us) ss adminsOnly ads
    = (if adminsOnly
       then filter (λ x, x ∉ ads) (sortUserIds (userId <$> ms) us ss)
       else sortUserIds (userId <$> ms) us ss)
  ∧ memberIds (Some ms) (Some us) ss adminsOnly ads
      ≡ₚ filter (λ x, adminsOnly = true → x ∉ ads) (userId <$> ms)
  ∧ (NoDup (userId <$> ms) →
     memberIds (Some ms) (Some us) ss adminsOnly ads
     = memberIds_dedup ms us ss adminsOnly ads).
Proof.
  split; [|split].
  - unfold memberIds. destruct adminsOnly; [|done].
    apply list_filter_iff. intros x.
    by rewrite negb_True, Is_true_true, includes_true.
  - unfold memberIds. destruct adminsOnly.
    + rewrite sortUserIds_perm. apply reflexive_eq, list_filter_iff.
      intros x. rewrite negb_True, Is_true_true, includes_true. tauto.
    + rewrite sortUserIds_perm. symmetry. apply reflexive_eq.
      induction (userId <$> ms) as [|y l IH]; [done|].
      rewrite filter_cons_True by discriminate. by rewrite IH.
  - intros Hnd. unfold memberIds, memberIds_dedup.
    by rewrite (unique_fixed _ Hnd).
Qed.

(** C10.  In admins-only mode without an admin index, [adminIds] is empty
    and nothing is excluded: [memberIds] and [displayedIds] are those of the
    same snapshot with an empty admin index, and those of the same snapshot
    with the mode switched off. *)
Theorem no_admin_index_no_exclusion (i : Inputs) :
  noAdmins i = true →
  adminMembersById i = None →
  snapshot_adminIds i = []
  ∧ snapshot_memberIds i = snapshot_memberIds (with_admins true (Some ∅) i)
  ∧ snapshot_displayedIds i
    = snapshot_displayedIds (with_admins true (Some ∅) i)
  ∧ snapshot_memberIds i = snapshot_memberIds (with_admins false None i)
  ∧ snapshot_displayedIds i
    = snapshot_displayedIds (with_admins false None i).
Proof.
  intros Hna Hnone.
  assert (Hads : snapshot_adminIds i = []).
  { unfold snapshot_adminIds. by rewrite Hna, Hnone. }
  assert (Hempty : snapshot_adminIds (with_admins true (Some ∅) i) = []).
  { unfold snapshot_adminIds, with_admins, adminIds, Object_keys. simpl.
    by rewrite map_to_list_empty. }
  assert (Hoff : snapshot_adminIds (with_admins false None i) = []) by done.
  assert (Hm0 : snapshot_memberIds i
                = snapshot_memberIds (with_admins false None i)).
  { unfold snapshot_memberIds. rewrite Hads, Hoff, Hna. simpl.
    destruct (members i) as [ms|]; simpl; [|done].
    apply filter_includes_nil. }
  assert (Hm1 : snapshot_memberIds i
                = snapshot_memberIds (with_admins true (Some ∅) i)).
  { unfold snapshot_memberIds. rewrite Hads, Hempty, Hna. done. }
  split; [done|]. split; [done|]. split; [|split; [done|]].
  - unfold snapshot_displayedIds. rewrite <- Hm1, Hads, Hempty, Hna. done.
  - unfold snapshot_displayedIds. rewrite <- Hm0, Hads, Hoff, Hna.
    cbn [with_admins noAdmins isChannel usersById chatsById localContactIds
         searchQuery localUserIds globalUserIds].
    unfold displayedIds.
    apply (f_equal (λ l, sortChatIds l (chatsById i) true)).
    apply list_filter_iff. intros x. by rewrite keepContact_no_admins.
Qed.

End Members.

(** ** The context action *)

(** C8.  The remove-from-group action is offered for an identifier exactly
    when it is not the viewer's own and [canDeleteMembers] holds: then the
    result is that single action, otherwise it is [undefined]. *)
Theorem context_action_gate (lang : string → string)
    (currentUserId : option id) (canDeleteMembers : bool) (memberId : id) :
  (is_Some (getMemberContextAction lang currentUserId canDeleteMembers memberId)
   ↔ currentUserId ≠ Some memberId ∧ canDeleteMembers = true)
  ∧ (getMemberContextAction lang currentUserId canDeleteMembers memberId
     = if bool_decide (currentUserId ≠ Some memberId) && canDeleteMembers
       then Some [ {| title := lang "lng_context_remove_from_group";
                      icon := "stop";
                      handler := λ _, Some memberId |} ]
       else None).
Proof.
  unfold getMemberContextAction.
  destruct (decide (Some memberId = currentUserId)) as [Heq|Hne].
  - rewrite bool_decide_eq_true_2 by done.
    rewrite (bool_decide_eq_false_2 (currentUserId ≠ Some memberId))
      by (intros Hc; by apply Hc). simpl.
    split; [|done]. split; [by intros [? ?]|]. intros [Hc _]. by destruct Hc.
  - rewrite bool_decide_eq_false_2 by done.
    rewrite (bool_decide_eq_true_2 (currentUserId ≠ Some memberId))
      by (intros Hc; by apply Hne). simpl.
    destruct canDeleteMembers; simpl.
    + split; [|done]. split; [|by eexists]. intros _. split; [|done].
      intros Hc. by apply Hne.
    + split; [|done]. split; [by intros [? ?]|]. by intros [_ ?].
Qed.

(** ** The pagination window *)

Section Window.
Import Pagination.
Variables initialPageSize pageIncrement : nat.







End Window.

(** The viewport the component receives on line 136 shows displayed
    identifiers only, in their order and none twice. *)
Lemma viewport_of_displayedIds `{Imports} (initialPageSize : nat)
    (i : Inputs) :
  Pagination.viewportIds
    (Pagination.useInfiniteScroll initialPageSize (snapshot_displayedIds i)
       (Boolean (searchQuery i)))
    `prefix_of` snapshot_displayedIds i
  ∧ NoDup
      (Pagination.viewportIds
         (Pagination.useInfiniteScroll initialPageSize
            (snapshot_displayedIds i) (Boolean (searchQuery i)))).
Proof.
  split; [apply prefix_take|].
  eapply sublist_NoDup; [apply NoDup_displayedIds|apply sublist_take].
Qed.

(** ** Further facts about exclusion *)

Section Exclusion.
Context `{Imports}.

(** In admins-only mode an administrator that has a user record is absent
    from [displayedIds]. *)
Theorem resolved_admin_excluded (i : Inputs) (x : id) :
  noAdmins i = true →
  x ∈ snapshot_adminIds i →
  is_Some (usersById i !! x) →
  x ∉ snapshot_displayedIds i.
Proof.
  intros Hna Hadm Hres. unfold snapshot_displayedIds. rewrite Hna.
  by apply resolved_admin_dropped.
Qed.

(** [adminIds] is the key set of the admin index, in admins-only mode. *)
Lemma elem_of_snapshot_adminIds (i : Inputs) (x : id) :
  x ∈ snapshot_adminIds i ↔
  noAdmins i = true
  ∧ ∃ byId, adminMembersById i = Some byId ∧ is_Some (byId !! x).
Proof.
  unfold snapshot_adminIds, adminIds.
  destruct (noAdmins i), (adminMembersById i) as [byId|].
  - rewrite elem_of_Object_keys. split.
    + intros Hx. split; [done|]. by exists byId.
    + by intros [_ (? & [= <-] & Hx)].
  - split; [inversion 1|]. by intros [_ (? & ? & _)].
  - split; [inversion 1|]. by intros [? _].
  - split; [inversion 1|]. by intros [? _].
Qed.

(** The early return of the filter callback: in admins-only mode a candidate
    that is an administrator but has no user record is displayed, since the
    admin test is only reached for identifiers with a record. *)
Lemma unresolved_admin_displayed (i : Inputs) (x : id) :
  noAdmins i = true →
  x ∈ snapshot_adminIds i →
  x ∈ snapshot_candidateIds i →
  usersById i !! x = None →
  x ∈ snapshot_displayedIds i.
Proof. intros _ _ Hcand Hnone. by apply unresolved_candidate_kept. Qed.

(** In admins-only mode without a query no administrator is displayed,
    with or without a user record: [memberIds] has none. *)
Theorem admin_excluded_without_query (i : Inputs) (x : id) :
  noAdmins i = true →
  searchQuery i = None ∨ searchQuery i = Some "" →
  x ∈ snapshot_adminIds i →
  x ∉ snapshot_displayedIds i.
Proof.
  intros Hna Hq%Boolean_false Hadm.
  unfold snapshot_displayedIds. rewrite elem_of_displayedIds.
  intros [Hcand _]. revert Hcand.
  unfold candidateIds, listedIds. rewrite Hq. simpl.
  rewrite app_nil_r, unique_elem. unfold snapshot_memberIds. rewrite Hna.
  by apply memberIds_no_admin.
Qed.

(** Outside a channel a bot that cannot be invited is absent from
    [displayedIds] even when it is a member of the chat. *)
Theorem uninvitable_bot_member_excluded (i : Inputs) (x : id) (u : ApiUser) :
  isChannel i = false →
  usersById i !! x = Some u →
  isUserBot u = true →
  canBeInvitedToGroup u = false →
  x ∈ snapshot_memberIds i →
  x ∉ snapshot_displayedIds i.
Proof.
  intros Hch Hu Hbot Hinv _. unfold snapshot_displayedIds. rewrite Hch.
  by eapply uninvitable_bot_dropped.
Qed.

End Exclusion.

(** ** The claims on sample snapshots *)

Module Checks.
Import Samples.
#[local] Existing Instance reference.

(** C1 as stated fails: in the sample search the hit [u5] is in the merged
    candidate list, has no user record, and is displayed. *)
Lemma unresolved_hit_not_dropped :
  "u5" ∈ snapshot_candidateIds search
  ∧ usersById search !! "u5" = None
  ∧ "u5" ∈ snapshot_displayedIds search.
Proof. split; [by_evaluation|]. split; [reflexivity|by_evaluation]. Qed.

Lemma unresolved_candidate_displayed_witness :
  "u5" ∈ snapshot_displayedIds search.
Proof.
  apply (unresolved_candidate_displayed search "u5").
  - by_evaluation.
  - vm_compute. reflexivity.
  - left. reflexivity.
Defined.

(** C2 at its failing input: in admins-only mode the search hit [u9] is a
    key of the admin index and has no user record; it is displayed. *)
Lemma admin_without_record_displayed :
  noAdmins admin_hit = true
  ∧ snapshot_adminIds admin_hit = ["u9"]
  ∧ usersById admin_hit !! "u9" = None
  ∧ snapshot_displayedIds admin_hit = ["u9"].
Proof. repeat split; vm_compute; reflexivity. Qed.

Lemma uninvitable_bot_excluded_witness :
  "u7" ∈ snapshot_candidateIds search
  ∧ "u7" ∉ snapshot_displayedIds search.
Proof.
  split; [by_evaluation|].
  apply (uninvitable_bot_excluded search "u7"
           {| Reference.displayName := "Annbot";
              Reference.invitable := false; Reference.bot := true |}).
  - reflexivity.
  - vm_compute. reflexivity.
  - reflexivity.
  - reflexivity.
  - by_evaluation.
Defined.

(** C5 as stated fails: a member listed twice is twice in [memberIds],
    once in the presence-ordered deduplication. *)
Lemma memberIds_not_deduplicated :
  memberIds (Some [member "u1"; member "u1"]) (Some users) statuses false []
    = ["u1"; "u1"]
  ∧ memberIds_dedup [member "u1"; member "u1"] users statuses false []
    = ["u1"]
  ∧ memberIds (Some [member "u1"; member "u1"]) (Some users) statuses false []
    ≠ memberIds_dedup [member "u1"; member "u1"] users statuses false [].
Proof. repeat split; vm_compute; [reflexivity..|discriminate]. Qed.

Lemma memberIds_keeps_occurrences_witness :
  memberIds (Some [member "u1"; member "u2"]) (Some users) statuses true ["u1"]
  = memberIds_dedup [member "u1"; member "u2"] users statuses true ["u1"].
Proof.
  apply (memberIds_keeps_occurrences
           [member "u1"; member "u2"] users statuses true ["u1"]).
  by_evaluation.
Defined.

Lemma displayedIds_sources_witness :
  snapshot_displayedIds search = assemble search (searchSources search)
  ∧ snapshot_displayedIds (group false)
    = assemble (group false) (snapshot_memberIds (group false)).
Proof.
  split.
  - apply (displayedIds_sources search) with (q := "ann").
    + reflexivity.
    + discriminate.
  - apply (displayedIds_sources (group false)). left. reflexivity.
Defined.

Lemma displayedIds_ignores_search_lists_witness :
  snapshot_displayedIds (with_search_lists None None None (group true))
  = snapshot_displayedIds
      (with_search_lists (Some ["u3"]) (Some ["u5"]) (Some ["u6"])
         (group true)).
Proof.
  apply (displayedIds_ignores_search_lists (group true)).
  left. reflexivity.
Defined.

Lemma no_admin_index_no_exclusion_witness :
  snapshot_adminIds no_admin_index = []
  ∧ snapshot_memberIds no_admin_index
    = snapshot_memberIds (with_admins true (Some ∅) no_admin_index)
  ∧ snapshot_displayedIds no_admin_index
    = snapshot_displayedIds (with_admins true (Some ∅) no_admin_index)
  ∧ snapshot_memberIds no_admin_index
    = snapshot_memberIds (with_admins false None no_admin_index)
  ∧ snapshot_displayedIds no_admin_index
    = snapshot_displayedIds (with_admins false None no_admin_index).
Proof. apply (no_admin_index_no_exclusion no_admin_index); reflexivity. Defined.

Lemma resolved_admin_excluded_witness :
  "u1" ∈ snapshot_adminIds (group true)
  ∧ "u1" ∉ snapshot_displayedIds (group true).
Proof.
  split; [by_evaluation|].
  apply (resolved_admin_excluded (group true) "u1").
  - reflexivity.
  - by_evaluation.
  - vm_compute. eexists. reflexivity.
Defined.

Lemma admin_excluded_without_query_witness :
  "u1" ∉ snapshot_displayedIds (group true).
Proof.
  apply (admin_excluded_without_query (group true) "u1").
  - reflexivity.
  - left. reflexivity.
  - by_evaluation.
Defined.

Lemma uninvitable_bot_member_excluded_witness :
  "u7" ∈ snapshot_memberIds
           (with_members (Some [member "u7"; member "u1"]) (group false))
  ∧ "u7" ∉ snapshot_displayedIds
             (with_members (Some [member "u7"; member "u1"]) (group false)).
Proof.
  split; [by_evaluation|].
  apply (uninvitable_bot_member_excluded
           (with_members (Some [member "u7"; member "u1"]) (group false))
           "u7"
           {| Reference.displayName := "Annbot";
              Reference.invitable := false; Reference.bot := true |}).
  - reflexivity.
  - vm_compute. reflexivity.
  - reflexivity.
  - reflexivity.
  - by_evaluation.
Defined.

(** The scenarios of the specification (section 8). *)

Example scenario_1 : snapshot_memberIds (group false) = ["u2"; "u1"].
Proof. vm_compute. reflexivity. Qed.

Example scenario_2 : snapshot_displayedIds (group true) = ["u2"].
Proof. vm_compute. reflexivity. Qed.

Example scenario_3 :
  listedIds (usersById search) (snapshot_memberIds search)
    (localContactIds search) (searchQuery search) = ["u3"]
  ∧ snapshot_displayedIds search = ["u3"; "u5"; "u6"].
Proof. split; vm_compute; reflexivity. Qed.

Example scenario_5 :
  let w := Pagination.initial 20 (replicate 50 "u") in
  Pagination.viewportSize (Pagination.loadMore 20 (Pagination.loadMore 20 w))
    = 50%nat
  ∧ Pagination.loadMore 20 (Pagination.loadMore 20 (Pagination.loadMore 20 w))
    = Pagination.loadMore 20 (Pagination.loadMore 20 w).
Proof. split; vm_compute; reflexivity. Qed.

(** A window over a list shorter than the page opens on the whole list, and
    [loadMore] leaves it there. *)
Example short_list_window :
  Pagination.viewportSize (Pagination.initial 20 ["u1"]) = 1%nat
  ∧ Pagination.viewportIds (Pagination.initial 20 ["u1"]) = ["u1"]
  ∧ Pagination.loadMore 20 (Pagination.initial 20 ["u1"])
    = Pagination.initial 20 ["u1"].
Proof. repeat split; vm_compute; reflexivity. Qed.


End Checks.

(** ** Membership of the two lists *)

Section Membership.
Context `{Imports}.

Lemma adminIds_off (admins : option (gmap id ApiChatMember)) :
  adminIds false admins = [].
Proof. by destruct admins. Qed.

Lemma snapshot_memberIds_not_admin (i : Inputs) (x : id) :
  x ∈ snapshot_memberIds i → noAdmins i = true → x ∉ snapshot_adminIds i.
Proof.
  intros Hx Hna Hadm. revert Hx. unfold snapshot_memberIds. rewrite Hna.
  by apply memberIds_no_admin.
Qed.

Lemma displayedIds_of_nothing us cs lc q lu gu ch na ads :
  Boolean q = false → displayedIds us cs [] lc q lu gu ch na ads = [].
Proof.
  intros Hq. apply Permutation_nil_r. unfold displayedIds.
  rewrite sortChatIds_perm. unfold candidateIds, listedIds. by rewrite Hq.
Qed.

(** [memberIds] holds exactly the identifiers of the members, minus, in
    admins-only mode, the keys of the admin index. *)
Theorem memberIds_membership (i : Inputs) (x : id) :
  x ∈ snapshot_memberIds i ↔
  (∃ ms, members i = Some ms ∧ x ∈ userId <$> ms)
  ∧ ¬ (noAdmins i = true
       ∧ ∃ byId, adminMembersById i = Some byId ∧ is_Some (byId !! x)).
Proof.
  rewrite <- elem_of_snapshot_adminIds. unfold snapshot_memberIds.
  destruct (members i) as [ms|].
  - rewrite elem_of_memberIds. split.
    + intros [Hx Hadm]. split; [by exists ms|].
      intros Hin. pose proof Hin as [Hna _]%elem_of_snapshot_adminIds.
      by apply Hadm.
    + intros [(ms' & [= <-] & Hx) Hadm]. split; [done|].
      intros Hna Hin. apply Hadm. exact Hin.
  - split; [inversion 1|]. by intros [(? & ? & _) _].
Qed.

(** For an identifier with a user record, being displayed is being a
    candidate that passes both tests: channel, invitable or not a bot; and,
    in admins-only mode, not an administrator. *)
Theorem resolved_displayed_iff (i : Inputs) (x : id) (u : ApiUser) :
  usersById i !! x = Some u →
  (x ∈ snapshot_displayedIds i ↔
   x ∈ snapshot_candidateIds i
   ∧ (isChannel i = true ∨ canBeInvitedToGroup u = true
      ∨ isUserBot u = false)
   ∧ (noAdmins i = true → x ∉ snapshot_adminIds i)).
Proof.
  intros Hu. unfold snapshot_displayedIds. rewrite elem_of_displayedIds.
  rewrite (keepContact_resolved _ _ _ _ _ _ Hu).
  rewrite andb_true_iff, !orb_true_iff, !negb_true_iff, includes_false.
  fold (snapshot_candidateIds i). split.
  - intros (Hc & Hbot & Hadm). split; [done|]. split; [tauto|].
    intros Hna. destruct Hadm as [Hadm|Hadm]; [congruence|done].
  - intros (Hc & Hbot & Hadm). split; [done|]. split; [tauto|].
    destruct (noAdmins i); [right; by apply Hadm|by left].
Qed.

(** Without a query the displayed identifiers are the entries of
    [memberIds] whose user, when there is a record of it, is invitable or
    not a bot, or any entry in a channel. *)
Theorem displayedIds_without_query_iff (i : Inputs) (x : id) :
  searchQuery i = None ∨ searchQuery i = Some "" →
  (x ∈ snapshot_displayedIds i ↔
   x ∈ snapshot_memberIds i
   ∧ ∀ u, usersById i !! x = Some u →
          isChannel i = true ∨ canBeInvitedToGroup u = true
          ∨ isUserBot u = false).
Proof.
  intros Hq%Boolean_false. unfold snapshot_displayedIds.
  rewrite elem_of_displayedIds. unfold candidateIds, listedIds.
  rewrite Hq. simpl. rewrite app_nil_r, unique_elem. split.
  - intros [Hm Hkeep]. split; [done|]. intros u Hu.
    rewrite (keepContact_resolved _ _ _ _ _ _ Hu) in Hkeep.
    apply andb_true_iff in Hkeep as [Hbot _].
    rewrite !orb_true_iff, negb_true_iff in Hbot. tauto.
  - intros [Hm Hbot]. split; [done|].
    destruct (usersById i !! x) as [u|] eqn:Hu;
      [|by apply keepContact_unresolved].
    rewrite (keepContact_resolved _ _ _ _ _ _ Hu).
    apply andb_true_iff. split.
    + rewrite !orb_true_iff, negb_true_iff. specialize (Hbot u eq_refl). tauto.
    + destruct (noAdmins i) eqn:Hna; [|done]. simpl.
      apply negb_true_iff, includes_false.
      by apply snapshot_memberIds_not_admin.
Qed.

(** Outside admins-only mode the admin index is not read: two snapshots
    that differ only in it have the same [memberIds] and [displayedIds]. *)
Theorem admin_index_unread_outside_admins_only (i : Inputs)
    (admins1 admins2 : option (gmap id ApiChatMember)) :
  snapshot_memberIds (with_admins false admins1 i)
  = snapshot_memberIds (with_admins false admins2 i)
  ∧ snapshot_displayedIds (with_admins false admins1 i)
    = snapshot_displayedIds (with_admins false admins2 i).
Proof.
  unfold snapshot_displayedIds, snapshot_memberIds, snapshot_adminIds.
  cbn [with_admins noAdmins adminMembersById members userStatusesById
       isChannel usersById chatsById localContactIds searchQuery
       localUserIds globalUserIds].
  by rewrite !adminIds_off.
Qed.

(** With no member list and no query nothing is displayed. *)
Theorem no_members_no_query_empty (i : Inputs) :
  members i = None →
  searchQuery i = None ∨ searchQuery i = Some "" →
  snapshot_displayedIds i = [].
Proof.
  intros Hms Hq%Boolean_false. unfold snapshot_displayedIds, snapshot_memberIds.
  rewrite Hms. by apply displayedIds_of_nothing.
Qed.

(** In a channel, outside admins-only mode, the filter removes nothing:
    the displayed list is a rearrangement of the candidates. *)
Theorem channel_keeps_every_candidate (i : Inputs) :
  isChannel i = true →
  noAdmins i = false →
  snapshot_displayedIds i ≡ₚ snapshot_candidateIds i.
Proof.
  intros Hch Hna. unfold snapshot_displayedIds, displayedIds.
  rewrite sortChatIds_perm, Hch, Hna. fold (snapshot_candidateIds i).
  apply reflexive_eq.
  induction (snapshot_candidateIds i) as [|y l IH]; [done|].
  rewrite filter_cons_True; [by rewrite IH|].
  apply Is_true_true. unfold keepContact.
  by destruct (usersById i !! y).
Qed.

End Membership.

(** ** Event handlers *)

(** A click on a member.  Outside admins-only mode it closes the management
    panel and opens the chat, and never fails, whether or not the optional
    callbacks are supplied.  In admins-only mode it neither closes the panel
    nor opens a chat; it returns exactly when both callbacks are supplied,
    and a missing [onScreenSelect] fails only after [onChatMemberSelect] has
    been called. *)
Theorem handleMemberClick_outcomes (noAdmins hasSelect hasScreen : bool)
    (memberId : option id) :
  (returned (handleMemberClick noAdmins hasSelect hasScreen memberId) = true
   ↔ noAdmins = false ∨ (hasSelect = true ∧ hasScreen = true))
  ∧ (noAdmins = false →
     calls (handleMemberClick noAdmins hasSelect hasScreen memberId)
     = [closeManagement; openChat memberId])
  ∧ (noAdmins = true →
     (closeManagement
        ∉ calls (handleMemberClick noAdmins hasSelect hasScreen memberId))
     ∧ (∀ c, openChat c
             ∉ calls (handleMemberClick noAdmins hasSelect hasScreen memberId))
     ∧ calls (handleMemberClick noAdmins hasSelect hasScreen memberId)
       = if hasSelect
         then onChatMemberSelect memberId true
              :: (if hasScreen then [onScreenSelect ChatNewAdminRights]
                  else [])
         else []).
Proof.
  split; [|split].
  - destruct noAdmins, hasSelect, hasScreen; simpl; split;
      first [done | by left | by right | by intros [?|[? ?]]].
  - by intros ->.
  - intros ->. destruct hasSelect, hasScreen; simpl;
      (split; [|split; [intros c|done]]);
      rewrite ?elem_of_cons, ?elem_of_nil; intros Hc;
      repeat match goal with
             | Hc : _ ∨ _ |- _ => destruct Hc as [Hc|Hc]
             end; done.
Qed.

Lemma array_at_in_range (l : list id) (k : Z) :
  (0 ≤ k < Z.of_nat (length l))%Z →
  ∃ x, array_at l k = Some x ∧ x ∈ l.
Proof.
  intros [Hlo Hhi]. unfold array_at.
  rewrite (proj2 (Z.ltb_ge k 0)) by done.
  destruct (l !! Z.to_nat k) as [x|] eqn:Hx.
  - exists x. split; [done|]. by eapply list_elem_of_lookup_2.
  - apply lookup_ge_None in Hx. lia.
Qed.

Lemma array_at_out_of_range (l : list id) (k : Z) :
  (k < 0 ∨ Z.of_nat (length l) ≤ k)%Z → array_at l k = None.
Proof.
  intros Hk. unfold array_at. destruct (k <? 0)%Z eqn:Hneg; [done|].
  apply Z.ltb_ge in Hneg. apply lookup_ge_None. lia.
Qed.

(** Keyboard selection.  With an undefined or empty viewport nothing is
    called.  Otherwise the click handler runs: on the first entry for index
    -1 as for index 0, on the entry at the index when it is within the
    viewport, and with [undefined] when the index is past its end or below
    -1. *)
Theorem handleKeyDown_select_cases (noAdmins hasSelect hasScreen : bool)
    (viewportIds : option (list id)) (index : Z) :
  (viewportIds = None ∨ viewportIds = Some [] →
   handleKeyDown_select noAdmins hasSelect hasScreen viewportIds index = skip)
  ∧ (∀ first rest, viewportIds = Some (first :: rest) →
     (index = (-1)%Z ∨ index = 0%Z →
      handleKeyDown_select noAdmins hasSelect hasScreen viewportIds index
      = handleMemberClick noAdmins hasSelect hasScreen (Some first))
     ∧ ((0 ≤ index < Z.of_nat (length (first :: rest)))%Z →
        ∃ x, (first :: rest) !! Z.to_nat index = Some x
             ∧ handleKeyDown_select noAdmins hasSelect hasScreen
                 viewportIds index
               = handleMemberClick noAdmins hasSelect hasScreen (Some x))
     ∧ ((index < -1 ∨ Z.of_nat (length (first :: rest)) ≤ index)%Z →
        handleKeyDown_select noAdmins hasSelect hasScreen viewportIds index
        = handleMemberClick noAdmins hasSelect hasScreen None)).
Proof.
  split.
  - by intros [->| ->].
  - intros first rest ->. unfold handleKeyDown_select. split; [|split].
    + by intros [->| ->].
    + intros Hk. rewrite (proj2 (Z.eqb_neq index (-1))) by lia.
      destruct (array_at_in_range (first :: rest) index Hk) as (x & Hx & _).
      exists x. split; [|by rewrite Hx].
      unfold array_at in Hx. by rewrite (proj2 (Z.ltb_ge index 0)) in Hx by lia.
    + intros Hk. rewrite (proj2 (Z.eqb_neq index (-1))) by (simpl in Hk; lia).
      rewrite array_at_out_of_range; [done|]. lia.
Qed.

(** ** What is rendered *)

Lemma rows_ids {A} (f : id → A) (l : list id) :
  ((λ x, (x, f x)) <$> l).*1 = l.
Proof. induction l as [|y l IH]; [done|]. simpl. f_equal. exact IH. Qed.

(** The member section shows the list exactly when the viewport is
    non-empty, with one row per viewport identifier in order; the
    nothing-found notice exactly when the viewport is defined, empty and no
    search is running; and the loading placeholder otherwise, that is when
    the viewport is undefined, or empty during a search. *)
Theorem renderMembers_cases (lang : string → string)
    (currentUserId : option id) (canDeleteMembers : bool)
    (displayedIds : list id) (viewportIds : option (list id))
    (isSearching isChannel : bool) :
  (∀ items rows,
     renderMembers lang currentUserId canDeleteMembers displayedIds
       viewportIds isSearching isChannel = MemberList items rows →
     items = displayedIds ∧ viewportIds = Some rows.*1 ∧ rows ≠ [])
  ∧ (∀ first rest, viewportIds = Some (first :: rest) →
     ∃ rows,
       renderMembers lang currentUserId canDeleteMembers displayedIds
         viewportIds isSearching isChannel = MemberList displayedIds rows)
  ∧ ((∃ text,
        renderMembers lang currentUserId canDeleteMembers displayedIds
          viewportIds isSearching isChannel = NothingFound text)
     ↔ viewportIds = Some [] ∧ isSearching = false)
  ∧ (renderMembers lang currentUserId canDeleteMembers displayedIds
       viewportIds isSearching isChannel = Loading
     ↔ viewportIds = None ∨ (viewportIds = Some [] ∧ isSearching = true)).
Proof.
  unfold renderMembers. destruct viewportIds as [[|first rest]|].
  - destruct isSearching; simpl; (split; [done|]); (split; [done|]); split;
      split; first [done | by eexists | by intros [? ?] | by right
                   | by intros [?|[? ?]] | by intros [? [? ?]] ].
  - split; [|split; [|split]].
    + intros items rows [= <- <-]. split; [done|]. split; [|done].
      f_equal. symmetry. apply (rows_ids _ (first :: rest)).
    + intros ? ? _. by eexists.
    + split; [by intros [? ?]|by intros [? _]].
    + split; [done|]. by intros [?|[? _]].
  - destruct isSearching; simpl; (split; [done|]); (split; [done|]); split;
      split; first [done | by left | by intros [? ?] | by intros [? [? ?]] ].
Qed.

(** The remove action and the modal.  Whenever a context action is offered
    the delete modal is mounted; running the action's handler makes the
    modal show the member (open unless the identifier is the empty string),
    and closing the modal clears it again. *)
Theorem remove_action_drives_modal (lang : string → string)
    (currentUserId : option id) (canDeleteMembers : bool) (memberId : id)
    (actions : list MenuItemContextAction) (deletingUserId : option id) :
  getMemberContextAction lang currentUserId canDeleteMembers memberId
    = Some actions →
  ∀ action, action ∈ actions →
    renderDeleteMemberModal canDeleteMembers (handler action deletingUserId)
    = Some {| isOpen := negb (String.eqb memberId "");
              modal_userId := Some memberId |}
    ∧ renderDeleteMemberModal canDeleteMembers
        (handleDeleteMembersModalClose (handler action deletingUserId))
      = Some {| isOpen := false; modal_userId := None |}.
Proof.
  unfold getMemberContextAction.
  destruct (bool_decide (Some memberId = currentUserId)); [done|].
  destruct canDeleteMembers; [|done]. simpl.
  intros [= <-] action Hin. apply list_elem_of_singleton in Hin as ->.
  done.
Qed.

(** ** The connection to the global store *)

Section Connected.
Context `{Imports}.
Variables (isCreator : ApiChat → bool) (membersCount : ApiChat → option Z).
Variables (isChatChannel isChatBasicGroup : ApiChat → bool).
Variable getHasAdminRight : ApiChat → string → bool.

(** The hide-participants switch is offered exactly when the chat is known,
    the viewer is its creator or may ban users, it is no basic group, and
    its member count and the configured minimum are both known with the
    count at least the minimum; the viewer may then also delete members. *)
Theorem canHideParticipants_iff (global : Connect.GlobalState) (chatId : id) :
  (Connect.canHideParticipants
     (Connect.mapStateToProps isCreator membersCount isChatChannel
        isChatBasicGroup getHasAdminRight global chatId) = true
   ↔ ∃ chat count minCount,
       Connect.selectChat global chatId = Some chat
       ∧ (isCreator chat = true ∨ getHasAdminRight chat "banUsers" = true)
       ∧ isChatBasicGroup chat = false
       ∧ membersCount chat = Some count
       ∧ Connect.appConfig_hiddenMembersMinCount global = Some minCount
       ∧ (minCount ≤ count)%Z)
  ∧ (Connect.canHideParticipants
       (Connect.mapStateToProps isCreator membersCount isChatChannel
          isChatBasicGroup getHasAdminRight global chatId) = true
     → Connect.canDeleteMembers
         (Connect.mapStateToProps isCreator membersCount isChatChannel
            isChatBasicGroup getHasAdminRight global chatId) = true).
Proof.
  unfold Connect.mapStateToProps. simpl.
  destruct (Connect.selectChat global chatId) as [chat|]; simpl.
  - split.
    + rewrite !andb_true_iff, orb_true_iff, negb_true_iff. split.
      * destruct (membersCount chat) as [count|] eqn:Hmc;
          [|by intros (_ & _ & ?)].
        destruct (Connect.appConfig_hiddenMembersMinCount global)
          as [minCount|]; [|by intros (_ & _ & ?)].
        intros (Hdel & Hbasic & Hcount%Z.leb_le).
        exists chat, count, minCount. by split_and!.
      * intros (c & count & minCount & [= <-] & Hdel & Hbasic & -> & -> & Hle).
        split; [done|]. split; [done|]. by apply Z.leb_le.
    + by intros [? _]%andb_true_iff.
  - split; [|done]. split; [done|]. by intros (? & ? & ? & ? & _).
Qed.

(** The remove action is offered for a member exactly when the chat is
    known, the viewer is its creator or may ban users, and the member is not
    the viewer. *)
Theorem remove_action_from_store (lang : string → string)
    (global : Connect.GlobalState) (chatId memberId : id) :
  is_Some
    (getMemberContextAction lang
       (Connect.currentUserId
          (Connect.mapStateToProps isCreator membersCount isChatChannel
             isChatBasicGroup getHasAdminRight global chatId))
       (Connect.canDeleteMembers
          (Connect.mapStateToProps isCreator membersCount isChatChannel
             isChatBasicGroup getHasAdminRight global chatId))
       memberId)
  ↔ (∃ chat, Connect.selectChat global chatId = Some chat
             ∧ (isCreator chat = true
                ∨ getHasAdminRight chat "banUsers" = true))
    ∧ Connect.global_currentUserId global ≠ Some memberId.
Proof.
  unfold Connect.mapStateToProps, getMemberContextAction. simpl.
  case_bool_decide as Hself; simpl.
  - split; [by intros [? ?]|]. intros [_ Hne]. by destruct Hne.
  - destruct (Connect.selectChat global chatId) as [chat|]; simpl.
    + destruct (isCreator chat || getHasAdminRight chat "banUsers") eqn:Hdel;
        simpl.
      * apply orb_true_iff in Hdel. split; [|by eexists]. intros _.
        split; [by exists chat|]. intros Hc. by apply Hself.
      * apply orb_false_iff in Hdel as [Hc Hr]. split; [by intros [? ?]|].
        intros [(c & [= <-] & [?|?]) _]; congruence.
    + split; [by intros [? ?]|]. by intros [(? & ? & _) _].
Qed.

(** While the chat's full info is not in the store and the query is empty,
    [memberIds] and [displayedIds] are empty, in either mode. *)
Theorem unloaded_chat_displays_nothing (global : Connect.GlobalState)
    (chatId : id) (noAdmins : bool) :
  Connect.selectChatFullInfo global chatId = None →
  Connect.query (Connect.userSearch global) = None
  ∨ Connect.query (Connect.userSearch global) = Some "" →
  snapshot_memberIds
    (Connect.inputs noAdmins global
       (Connect.mapStateToProps isCreator membersCount isChatChannel
          isChatBasicGroup getHasAdminRight global chatId)) = []
  ∧ snapshot_displayedIds
      (Connect.inputs noAdmins global
         (Connect.mapStateToProps isCreator membersCount isChatChannel
            isChatBasicGroup getHasAdminRight global chatId)) = [].
Proof.
  intros Hinfo Hq%Boolean_false.
  unfold snapshot_displayedIds, snapshot_memberIds, Connect.inputs,
    Connect.mapStateToProps. simpl. rewrite Hinfo. simpl.
  split; [done|]. by apply displayedIds_of_nothing.
Qed.

End Connected.

(** ** The further properties on sample snapshots *)

Module Runs.
Import Samples MoreSamples.
#[local] Existing Instance reference.

Lemma resolved_displayed_iff_witness :
  "u3" ∈ snapshot_displayedIds search
  ↔ "u3" ∈ snapshot_candidateIds search
    ∧ (isChannel search = true ∨ true = true ∨ false = false)
    ∧ (noAdmins search = true → "u3" ∉ snapshot_adminIds search).
Proof.
  apply (resolved_displayed_iff search "u3"
           {| Reference.displayName := "Ann";
              Reference.invitable := true; Reference.bot := false |}).
  vm_compute. reflexivity.
Defined.

Lemma displayedIds_without_query_iff_witness :
  "u2" ∈ snapshot_displayedIds (group true)
  ↔ "u2" ∈ snapshot_memberIds (group true)
    ∧ ∀ u, usersById (group true) !! "u2" = Some u →
           isChannel (group true) = true ∨ canBeInvitedToGroup u = true
           ∨ isUserBot u = false.
Proof.
  apply (displayedIds_without_query_iff (group true) "u2").
  left. reflexivity.
Defined.

Lemma no_members_no_query_empty_witness :
  snapshot_displayedIds unloaded = [].
Proof.
  apply (no_members_no_query_empty unloaded).
  - reflexivity.
  - right. reflexivity.
Defined.

Lemma channel_keeps_every_candidate_witness :
  snapshot_displayedIds channel_search
  ≡ₚ snapshot_candidateIds channel_search.
Proof.
  apply (channel_keeps_every_candidate channel_search); reflexivity.
Defined.

Lemma remove_action_drives_modal_witness :
  renderDeleteMemberModal true (Some "u2")
  = Some {| isOpen := true; modal_userId := Some "u2" |}
  ∧ renderDeleteMemberModal true None
    = Some {| isOpen := false; modal_userId := None |}.
Proof.
  apply (remove_action_drives_modal (λ key, key) (Some "u1") true "u2"
           [ {| title := "lng_context_remove_from_group"; icon := "stop";
                handler := λ _, Some "u2" |} ]
           None eq_refl
           {| title := "lng_context_remove_from_group"; icon := "stop";
              handler := λ _, Some "u2" |}).
  apply list_elem_of_singleton. reflexivity.
Defined.

Lemma unloaded_chat_displays_nothing_witness :
  snapshot_memberIds
    (Connect.inputs true store
       (Connect.mapStateToProps creator count never never no_right
          store "c1")) = []
  ∧ snapshot_displayedIds
      (Connect.inputs true store
         (Connect.mapStateToProps creator count never never no_right
            store "c1")) = [].
Proof.
  apply (unloaded_chat_displays_nothing creator count never never no_right
           store "c1" true).
  - reflexivity.
  - left. reflexivity.
Defined.

(** The sample store: the creator [u1] may remove [u2] but not themselves,
    and may hide the participants of the 200-member chat. *)
Example store_grants :
  is_Some (getMemberContextAction (λ key, key)
             (Connect.currentUserId
                (Connect.mapStateToProps creator count never never no_right
                   store "c1"))
             (Connect.canDeleteMembers
                (Connect.mapStateToProps creator count never never no_right
                   store "c1"))
             "u2")
  ∧ getMemberContextAction (λ key, key)
      (Connect.currentUserId
         (Connect.mapStateToProps creator count never never no_right
            store "c1"))
      (Connect.canDeleteMembers
         (Connect.mapStateToProps creator count never never no_right
            store "c1"))
      "u1" = None
  ∧ Connect.canHideParticipants
      (Connect.mapStateToProps creator count never never no_right store "c1")
    = true
  ∧ Connect.canHideParticipants
      (Connect.mapStateToProps creator count never never no_right store "c2")
    = false.
Proof. split; [by eexists|]. repeat split; vm_compute; reflexivity. Qed.

(** Keyboard selection on a two-entry viewport, outside admins-only mode. *)
Example keyboard_runs :
  calls (handleKeyDown_select false false false (Some ["u1"; "u2"]) (-1))
    = [closeManagement; openChat (Some "u1")]
  ∧ calls (handleKeyDown_select false false false (Some ["u1"; "u2"]) 1)
    = [closeManagement; openChat (Some "u2")]
  ∧ calls (handleKeyDown_select false false false (Some ["u1"; "u2"]) 2)
    = [closeManagement; openChat None]
  ∧ calls (handleKeyDown_select false false false (Some []) 0) = []
  ∧ handleKeyDown_select true true false (Some ["u1"; "u2"]) 0
    = {| calls := [onChatMemberSelect (Some "u1") true]; returned := false |}.
Proof. repeat split; vm_compute; reflexivity. Qed.

End Runs.
